(* ===== verification/_CoqProject ===== *)
-Q . S2P
Prelude.v
JsValue.v
Env.v
Sqs.v
Services.v
Runtime.v
Publisher.v
PublishSpec.v
Runner.v
EventLoop.v
Logs.v
