(* ===== verification/Prelude.v ===== *)
(** * A verification library for [src/app-exemple/index.js]

    ** The program

    The program is a 38-line Node.js script.  At module load it builds an
    SQS client from four environment variables, each with a literal
    default taken by [||] (lines 3-10), and reads [QUEUE_URL] with no
    default (line 12).  [main] (lines 24-36) writes an error and calls
    [process.exit(1)] when [queueUrl] is falsy (lines 25-28), logs the
    queue (line 30), awaits [sendMessage] on two fixed messages in turn
    (lines 32-33) and logs success (line 35).  [sendMessage] (lines
    14-22) builds a [SendMessageCommand], awaits [client.send] and logs
    the message with the returned [MessageId].  The entry point (line 38)
    runs [main] and hands a rejection to [console.error].  The only
    interaction between the parts is through the module-level [client]
    and [queueUrl] and through the awaited promises; the only external
    party is the SQS service behind [client.send].

    ** Files, in dependency order

    - [Prelude] (this file): the libraries (stdpp's [gmap], strings,
      lists), the scope [js_scope] with the [let* x := m in k] notation
      for [const x = await m; k], the hint databases [js] and [js_rw],
      and [strip_prefix] with its lemmas, to take a line apart.
    - [JsValue]: [string | undefined] as [option string]; [truthy]
      (ToBoolean, for [!queueUrl]), [js_or] (the [||] of lines 4-8),
      [template_str] (ToString in a template literal, lines 21 and 30).
    - [Env], Module [Config]: lines 3-12.  [process.env] is a
      [gmap string string]; [client_config] is the object given to
      [new SQSClient] and [queueUrl] the read of line 12; [config_env]
      is the environment a deployment writes for a configuration.
    - [Sqs], Module [Sqs]: the data of the SDK calls: [SQSClient],
      [SendMessageCommand] (lines 15-18), [SendMessageResult] (line 21),
      [SdkError]; and the interface [SQSService], the class of services
      behind [client.send] (line 20), against which every theorem on the
      script is proved, and [SQSServiceLaws], the law a real service
      keeps that one theorem (C18) assumes: a rejected request changes
      nothing.
    - [Services], Module [Services]: three instances of the interface, to
      run the model: [Scripted] (a list of answers), [Accepting] (accepts
      every request) and [MemQueue] (an
      in-memory queue service like the LocalStack endpoint of line 5,
      which keeps the law).
    - [Runtime], Module [Runtime]: the Node.js process as a state and
      outcome monad [JS S A]: the world holds the service state and the
      ordered trace of events (stdout line, stderr line, stderr error
      object, request sent); an outcome is [Done], [Threw] (a rejected
      promise) or [Exited] (after [process.exit] nothing runs).
      Primitives: [console_log], [console_error], [console_error_err],
      [process_exit], [client_send], [js_catch]; [exit_code] maps the
      outcome to the process status (unhandled rejection: 1).
    - [Publisher], Module [Publisher]: [sendMessage] (lines 14-22) and
      its behaviour on an accepted and a rejected send.
    - [PublishSpec], Module [PublishSpec]: the abstract contract of the
      Runner (spec sections 4.2-4.3): the inductive relation [publishes]
      (sequential, one request per message, a receipt line per accepted
      message, fail-fast on the first rejection) and its executable form
      [publish], with [publish_iff] and the guarantees of the contract
      proved by rule induction.
    - [Runner], Module [Runner]: [main] (lines 24-36), [entry] (line 38),
      [program] (the whole module), [run_program] (exit status and final
      world of a process), and [send_all], the awaited sends of lines
      32-33 over any list of messages.
    - [EventLoop], Module [EventLoop]: the Node.js event loop as a
      machine.  [main_proc] and [sendMessage_proc] are lines 24-36 and
      14-22 as trees of steps with continuations ([proc]); [step] is the
      inductive step relation over the control (running, suspended on a
      request, idle, terminated), the [.catch] handler of line 38
      ([catch_handler]), the service state, the trace and the number of
      requests in flight; [step_fn] is its executable form, [run_loop]
      runs it with fuel, [init] is the process as the module starts it;
      the trace of every reachable state is a prefix of the final trace
      of [Runner.run_program].
    - [Logs], Module [Logs]: the console output as data: a [report]
      (missing configuration, or queue, receipts and how the run ended),
      [print_report] built from the script's own line templates,
      [parse_report] the reader, [report_wf] the reports a run can give,
      [console_output] the terminal's view of a trace; its theorems are
      stated in a Section over every service type.

    ** What the theorems show

    - Runs of the whole process ([Runner]): with [QUEUE_URL] unset or
      empty the process writes one error line, exits with status 1 and
      sends nothing (C1, C13); when the service accepts both sends the
      exact trace is: queue line, request 1, receipt 1, request 2,
      receipt 2, success line, status 0 (C2); a rejection of the first or
      second send stops the run at that send, the error is written by the
      [.catch] and the status is 0 (C3, C4); the status is 1 exactly when
      [QUEUE_URL] is falsy, whatever the service does (C5); every request
      carries the client configuration, the non-empty queue URL and one
      of the two messages (C9); the entry point never ends rejected (C10).
    - The publish sequence: [send_all] refines the contract [publishes]
      (C6); it is fail-fast: a rejected run is a completed run on the
      messages before the rejected one, then the rejected request and
      nothing after it (C7); a completed run keeps the order of messages,
      each receipt line right after its request (C8); [sendMessage] on
      each branch (C11, C12); with a lawful service, a run without a
      receipt leaves the service unchanged (C18); against a service that
      accepts every request, [send_all] completes with one request per
      message, in order (C19, spec section 8).
    - Configuration ([Env]): the client depends on the four AWS variables
      only (C17); unset or empty variables give the literal defaults
      (C14, C16); set variables are used as they are (C15); a
      configuration written to the environment is read back unchanged
      exactly when none of its fields is empty (C23).
    - The output ([Logs]): the console output of every run is the
      printing of a well-formed report and implies the exit status (C20);
      reading a printed well-formed report gives it back (C21), so the
      output determines the queue and the logged ids; in every state the
      event loop reaches, the output so far is a prefix of the printing
      of the well-formed report the run ends with, which carries its exit
      status (C22); a reply without [MessageId] and one with the id
      ["undefined"] give the same output (C24).
    Each theorem with hypotheses has a witness that applies it to a
    concrete environment and service and evaluates the rest.

    ** Plan of the development

    Done: the data model and every operation of lines 3-38 ([Env],
    [Publisher], [Runner]), the publish contract and its refinement, the
    event loop as a step relation, the console output as a typed report
    with its printer and reader, and the properties above.  What remains
    outside is listed under "Not modelled": it is text or machinery the
    script only calls.

    ** Bounds and fuel

    The program has no loop and no recursion: [send_all] is structural on
    the list of messages, and every definition is total, so every run
    computes.  The only fuel is that of [EventLoop.run_loop]: the longest
    run of the script takes ten turns (queue line, two requests, two
    answers, two receipt lines, success line, return, drained loop), and
    [EventLoop.run_loop_init] shows any fuel of ten or more gives the
    final state of [Runner.run_program].  The exit status is a [Z]; the
    ids of [MemQueue] are drawn from an [N] counter.

    ** Not modelled

    - The AWS SDK and the SQS service themselves (HTTP, signing, retries
      inside the SDK, the wire format): a library the script only calls;
      the class [SQSService] stands for them, and the theorems hold for
      every instance.  The client configuration is passed to the service
      with every request so that an instance may depend on it.  The
      service answers every request: a request that never settles (a
      hung connection, no timeout in the script) is not modelled, so the
      theorems speak of the runs that end.
    - The text [console.error(err)] prints for an error object
      (util.inspect): the event keeps the error value itself.
    - Timers, other tasks and the microtask queue of the event loop: the
      script starts no other work, so [EventLoop] has a single task and
      one turn per statement or answer; where several microtask hops
      separate an answer from the resumed code, nothing observable
      happens in between.
    - Module resolution of [require] (line 1). *)

From stdpp Require Export base strings gmap list pretty.

Declare Scope js_scope.
Delimit Scope js_scope with js.

Create HintDb js.
Create Rewrite HintDb js_rw.

(** [let* x := m in k]: sequencing in any stdpp monad, read as
    [const x = await m; k] in the modelled code. *)
Notation "'let*' x ':=' m 'in' k" := (mbind (fun x => k) m)
  (at level 10, x name, m at level 100, k at level 200,
   format "'[v' 'let*'  x  ':='  m  'in' '//' k ']'") : js_scope.

(** ** Strings *)

(** [strip_prefix p s]: the rest of [s] after [p], when [s] starts with
    [p]; how a reader of the process's output takes a line apart. *)
Fixpoint strip_prefix (p s : string) : option string :=
  match p, s with
  | EmptyString, _ => Some s
  | String a p', String b s' => if Ascii.eqb a b then strip_prefix p' s' else None
  | String _ _, EmptyString => None
  end.

Lemma string_app_cons x (a t : string) :
  String.append (String x a) t = String x (String.append a t).
Proof. reflexivity. Qed.

Lemma string_app_assoc (a b c : string) :
  String.append a (String.append b c) = String.append (String.append a b) c.
Proof. induction a as [|x a IH]; [done|]. by rewrite !string_app_cons, IH. Qed.

Lemma strip_prefix_app (p s : string) : strip_prefix p (String.append p s) = Some s.
Proof.
  induction p as [|a p IH]; [by destruct s|].
  rewrite string_app_cons. simpl. by rewrite Ascii.eqb_refl.
Qed.

#[export] Hint Rewrite strip_prefix_app : js_rw.
