(* ===== verification/JsValue.v ===== *)
(** * JsValue: the fragment of JavaScript value semantics the script uses

    Every value the script reads from its environment is a string or
    [undefined]: [process.env.X] (lines 4-8 and 12) and
    [response.MessageId] (line 21).  Such a value is an [option string]
    here, [None] standing for [undefined].  The script applies three
    operations to these values, each defined here as ECMAScript does:
    - [truthy]: [ToBoolean], used by [!queueUrl] (line 25);
    - [js_or]: the [a || b] operator with a string default (lines 4-8);
    - [template_str]: [ToString] inside a template literal [`${v}`]
      (lines 21 and 30), which prints [undefined] for [undefined]. *)

From S2P Require Import Prelude.
Local Open Scope string_scope.

(** A [string | undefined] value. *)
Abbreviation js_string := (option string).

(** [ToBoolean] on [string | undefined]: [undefined] and the empty
    string are falsy, every other string is truthy. *)
Definition truthy (v : js_string) : bool :=
  match v with
  | Some s => negb (String.eqb s "")
  | None => false
  end.

(** [v || d]: [v] when it is truthy, [d] otherwise. *)
Definition js_or (v : js_string) (d : string) : string :=
  match v with
  | Some s => if truthy (Some s) then s else d
  | None => d
  end.

(** [ToString] of a [string | undefined] value, as a template literal
    [`${v}`] renders it. *)
Definition template_str (v : js_string) : string :=
  match v with
  | Some s => s
  | None => "undefined"
  end.

(** ** Lemmas *)

Lemma truthy_Some (s : string) : truthy (Some s) = true <-> s <> "".
Proof.
  simpl. destruct (String.eqb_spec s ""); simpl; split; congruence.
Qed.

Lemma truthy_true (v : js_string) :
  truthy v = true <-> exists s, v = Some s /\ s <> "".
Proof.
  destruct v as [s|].
  - rewrite truthy_Some. split; [eauto | intros (? & [= <-] & ?); done].
  - split; [discriminate | intros (? & ? & _); discriminate].
Qed.

Lemma truthy_false (v : js_string) :
  truthy v = false <-> v = None \/ v = Some "".
Proof.
  destruct v as [s|]; simpl; [|tauto].
  destruct (String.eqb_spec s ""); simpl; split; intuition congruence.
Qed.

Lemma js_or_truthy (v : js_string) (d : string) :
  truthy v = true -> Some (js_or v d) = v.
Proof. destruct v as [s|]; simpl; [|discriminate]. by intros ->. Qed.

Lemma js_or_falsy (v : js_string) (d : string) :
  truthy v = false -> js_or v d = d.
Proof. destruct v as [s|]; simpl; [|done]. by intros ->. Qed.

Lemma template_str_truthy (v : js_string) :
  truthy v = true -> Some (template_str v) = v.
Proof. by destruct v. Qed.

#[export] Hint Resolve js_or_truthy js_or_falsy template_str_truthy : js.
