(* ===== verification/Env.v ===== *)
(** * Env: configuration resolution at module load (index.js lines 3-12)

    [process.env] is a JavaScript object from variable names to
    strings; it is a [gmap string string] here, read with [!!].  The
    module-level code of the script reads it five times: four reads with
    a [||] default build the [SQSClient] configuration (lines 3-10), and
    one read without default gives [queueUrl] (line 12).  Module [Config]
    holds the configuration record, the two reads and their lemmas, and
    [config_env], the environment that passes a configuration to the
    script, with the round trip through it. *)

From S2P Require Import Prelude JsValue.
Local Open Scope string_scope.

Module Config.

(** The [credentials] object of lines 6-9. *)
Record Credentials := mkCredentials {
  accessKeyId : string;
  secretAccessKey : string
}.

(** The object passed to [new SQSClient(...)] (lines 3-10). *)
Record SQSClientConfig := mkSQSClientConfig {
  region : string;
  endpoint : string;
  credentials : Credentials
}.

#[export] Instance Credentials_eq_dec : EqDecision Credentials.
Proof. solve_decision. Defined.
#[export] Instance SQSClientConfig_eq_dec : EqDecision SQSClientConfig.
Proof. solve_decision. Defined.

(** The names of the variables read by the script. *)
Definition AWS_REGION := "AWS_REGION".
Definition AWS_ENDPOINT_URL := "AWS_ENDPOINT_URL".
Definition AWS_ACCESS_KEY_ID := "AWS_ACCESS_KEY_ID".
Definition AWS_SECRET_ACCESS_KEY := "AWS_SECRET_ACCESS_KEY".
Definition QUEUE_URL := "QUEUE_URL".

(** The literal defaults of lines 4-8. *)
Definition default_region := "us-east-1".
Definition default_endpoint :=
  "http://addon-localstack.localstack-system.svc.cluster.local:4566".
Definition default_access_key_id := "test".
Definition default_secret_access_key := "test".

(** Lines 3-10: the configuration object, each field
    [process.env.X || default]. *)
Definition client_config (env : gmap string string) : SQSClientConfig :=
  {| region := js_or (env !! AWS_REGION) default_region;
     endpoint := js_or (env !! AWS_ENDPOINT_URL) default_endpoint;
     credentials :=
       {| accessKeyId := js_or (env !! AWS_ACCESS_KEY_ID) default_access_key_id;
          secretAccessKey :=
            js_or (env !! AWS_SECRET_ACCESS_KEY) default_secret_access_key |} |}.

(** Line 12: [const queueUrl = process.env.QUEUE_URL], with no default. *)
Definition queueUrl (env : gmap string string) : js_string :=
  env !! QUEUE_URL.

(** The configuration every variable left unset gives. *)
Definition default_client_config : SQSClientConfig :=
  {| region := default_region;
     endpoint := default_endpoint;
     credentials := {| accessKeyId := default_access_key_id;
                       secretAccessKey := default_secret_access_key |} |}.

(** The four variables the client configuration reads. *)
Definition client_keys : list string :=
  [AWS_REGION; AWS_ENDPOINT_URL; AWS_ACCESS_KEY_ID; AWS_SECRET_ACCESS_KEY].

(** Two environments: a LocalStack run with [AWS_REGION] set empty, and
    an AWS run with every variable set. *)
Definition env_localstack : gmap string string :=
  <[QUEUE_URL := "http://localhost:4566/000000000000/demo"]>
  (<[AWS_REGION := ""]> ∅).

Definition env_aws : gmap string string :=
  <[AWS_REGION := "eu-west-1"]> (<[AWS_ENDPOINT_URL := "https://sqs.eu-west-1.amazonaws.com"]>
  (<[AWS_ACCESS_KEY_ID := "AKIDEXAMPLE"]> (<[AWS_SECRET_ACCESS_KEY := "secret"]>
  (<[QUEUE_URL := "https://sqs.eu-west-1.amazonaws.com/1/q"]> ∅)))).

(** The environment that sets the four variables to the fields of a
    configuration: how a deployment passes a configuration to the
    script. *)
Definition config_env (c : SQSClientConfig) : gmap string string :=
  <[AWS_REGION := region c]> (<[AWS_ENDPOINT_URL := endpoint c]>
  (<[AWS_ACCESS_KEY_ID := accessKeyId (credentials c)]>
  (<[AWS_SECRET_ACCESS_KEY := secretAccessKey (credentials c)]> ∅))).

(** ** Lemmas on the [||] reads *)

(** Setting a variable to the empty string and leaving it unset give the
    same [||] read, at every key. *)
Lemma js_or_insert_empty (env : gmap string string) k k' d :
  js_or (<[k:=""]> env !! k') d = js_or (delete k env !! k') d.
Proof.
  destruct (decide (k = k')) as [<-|Hne].
  - by rewrite lookup_insert_eq, lookup_delete_eq.
  - by rewrite lookup_insert_ne, lookup_delete_ne.
Qed.

Lemma client_config_ext (env1 env2 : gmap string string) :
  env1 !! AWS_REGION = env2 !! AWS_REGION ->
  env1 !! AWS_ENDPOINT_URL = env2 !! AWS_ENDPOINT_URL ->
  env1 !! AWS_ACCESS_KEY_ID = env2 !! AWS_ACCESS_KEY_ID ->
  env1 !! AWS_SECRET_ACCESS_KEY = env2 !! AWS_SECRET_ACCESS_KEY ->
  client_config env1 = client_config env2.
Proof. unfold client_config. by intros -> -> -> ->. Qed.

(** A set variable is read as itself exactly when it is not empty (the
    default it falls back to is never empty). *)
Lemma js_or_Some_eq (v d : string) : d <> "" -> js_or (Some v) d = v <-> v <> "".
Proof.
  intros Hd. unfold js_or. destruct (truthy (Some v)) eqn:Hv.
  - apply truthy_Some in Hv. tauto.
  - apply truthy_false in Hv as [|[= ->]]; [done|]. split; [done|]. by intros [].
Qed.

Lemma client_config_config_env c :
  client_config (config_env c) =
    {| region := js_or (Some (region c)) default_region;
       endpoint := js_or (Some (endpoint c)) default_endpoint;
       credentials :=
         {| accessKeyId := js_or (Some (accessKeyId (credentials c))) default_access_key_id;
            secretAccessKey :=
              js_or (Some (secretAccessKey (credentials c))) default_secret_access_key |} |}.
Proof. unfold client_config, config_env. by simplify_map_eq. Qed.

(** ** Properties of the configuration *)

(** C17: the client configuration depends on the four AWS variables only. *)
Theorem client_config_depends_only_on_client_keys (env1 env2 : gmap string string) :
  (forall k, k ∈ client_keys -> env1 !! k = env2 !! k) ->
  client_config env1 = client_config env2.
Proof. intros Hk. apply client_config_ext; apply Hk; set_solver. Qed.

(** C14: a variable unset or set to the empty string gives the literal
    default, so an environment with none of the four set gives the
    default configuration. *)
Theorem client_config_unset (env : gmap string string) :
  (forall k, k ∈ client_keys -> truthy (env !! k) = false) ->
  client_config env = default_client_config.
Proof.
  intros Hk. unfold client_config.
  rewrite !js_or_falsy; try (apply Hk; set_solver). reflexivity.
Qed.

(** C15: four non-empty variables are taken as they are. *)
Theorem client_config_set (env : gmap string string) r e a s :
  env !! AWS_REGION = Some r -> r <> "" ->
  env !! AWS_ENDPOINT_URL = Some e -> e <> "" ->
  env !! AWS_ACCESS_KEY_ID = Some a -> a <> "" ->
  env !! AWS_SECRET_ACCESS_KEY = Some s -> s <> "" ->
  client_config env = mkSQSClientConfig r e (mkCredentials a s).
Proof.
  unfold client_config. intros -> Hr -> He -> Ha -> Hs.
  apply truthy_Some in Hr, He, Ha, Hs. unfold js_or. by rewrite Hr, He, Ha, Hs.
Qed.

(** C16: an AWS variable set to the empty string configures the client
    exactly as if it were unset ([||] treats [""] as falsy). *)
Theorem client_config_empty_is_unset (env : gmap string string) (k : string) :
  client_config (<[k:=""]> env) = client_config (delete k env).
Proof. unfold client_config. by rewrite !js_or_insert_empty. Qed.

(** C23: round trip: a configuration passed through the environment is
    read back by lines 3-10 as it was exactly when none of its four
    fields is empty: an empty field is replaced by its default. *)
Theorem client_config_roundtrip c :
  client_config (config_env c) = c <->
  region c <> "" /\ endpoint c <> "" /\
  accessKeyId (credentials c) <> "" /\ secretAccessKey (credentials c) <> "".
Proof.
  rewrite client_config_config_env. destruct c as [r e [a k]].
  cbn [region endpoint credentials accessKeyId secretAccessKey].
  split.
  - intros [= Hr He Ha Hk].
    split_and!; (eapply js_or_Some_eq; [|eassumption]); discriminate.
  - intros (Hr & He & Ha & Hk).
    rewrite (proj2 (js_or_Some_eq r default_region ltac:(discriminate)) Hr),
      (proj2 (js_or_Some_eq e default_endpoint ltac:(discriminate)) He),
      (proj2 (js_or_Some_eq a default_access_key_id ltac:(discriminate)) Ha),
      (proj2 (js_or_Some_eq k default_secret_access_key ltac:(discriminate)) Hk).
    done.
Qed.

(** ** Runs on concrete environments *)

Lemma client_config_depends_only_on_client_keys_witness :
  client_config env_aws = client_config (<["HOME" := "/root"]> env_aws).
Proof.
  apply client_config_depends_only_on_client_keys.
  apply Forall_forall. repeat (constructor; [reflexivity|]). constructor.
Defined.

Lemma client_config_unset_witness :
  client_config env_localstack = default_client_config.
Proof.
  apply client_config_unset.
  apply Forall_forall. repeat (constructor; [reflexivity|]). constructor.
Defined.

Lemma client_config_set_witness :
  client_config env_aws =
    mkSQSClientConfig "eu-west-1" "https://sqs.eu-west-1.amazonaws.com"
      (mkCredentials "AKIDEXAMPLE" "secret").
Proof. apply client_config_set; (reflexivity || discriminate). Defined.

End Config.
