(* ===== verification/Sqs.v ===== *)
(** * Sqs: the part of [@aws-sdk/client-sqs] the script calls

    The script uses two classes of the SDK: [SQSClient], built once from a
    configuration (lines 3-10), and [SendMessageCommand], built from the
    queue URL and the message body (lines 15-18); [client.send(command)]
    (line 20) performs one request and resolves to a response whose
    [MessageId] the script logs (line 21), or rejects with an error.

    The SDK and the service are not code of the repository: the data the
    script passes and reads are records here, and the service behind
    [client.send] is the class [SQSService], a function from the service
    state, the client configuration and the command to the next state and
    a response or an error.  Every theorem about the script holds for
    every instance; [Services] gives test instances, among them an
    in-memory queue service in the manner of LocalStack. *)

From S2P Require Import Prelude JsValue Env.
Import Config.

Module Sqs.

(** [new SQSClient(config)] (lines 3-10): the client keeps its
    resolved configuration and opens no connection. *)
Record SQSClient := new_SQSClient {
  client_config_of : SQSClientConfig
}.

(** The input object of [new SendMessageCommand({...})] (lines 15-18):
    [QueueUrl] is [queueUrl], which may be [undefined]. *)
Record SendMessageCommand := mkSendMessageCommand {
  QueueUrl : js_string;
  MessageBody : string
}.

(** The field of the [client.send] response the script reads (line 21);
    the SDK types it [string | undefined]. *)
Record SendMessageResult := mkSendMessageResult {
  MessageId : js_string
}.

(** A rejection of [client.send]: the SDK's service or transport error,
    with its [name] and [message]. *)
Record SdkError := mkSdkError {
  err_name : string;
  err_message : string
}.

#[export] Instance SendMessageCommand_eq_dec : EqDecision SendMessageCommand.
Proof. solve_decision. Defined.
#[export] Instance SendMessageResult_eq_dec : EqDecision SendMessageResult.
Proof. solve_decision. Defined.
#[export] Instance SdkError_eq_dec : EqDecision SdkError.
Proof. solve_decision. Defined.

(** The service behind [client.send] (line 20): one request, the next
    service state and either the response ([inl]) or the rejection
    ([inr]). *)
Class SQSService (S : Type) :=
  sqs_send : S -> SQSClientConfig -> SendMessageCommand ->
             S * (SendMessageResult + SdkError).

(** The law an SQS service keeps that the script's theorems may rely
    on: a rejected request changes nothing. *)
Class SQSServiceLaws (S : Type) `{SQSService S} := {
  sqs_send_rejected_unchanged s cfg cmd s' e :
    sqs_send s cfg cmd = (s', inr e) -> s' = s
}.

End Sqs.
