(* ===== verification/Services.v ===== *)
(** * Services: three instances of the SQS service interface

    The theorems of the development hold for every [SQSService].  This
    file gives three instances, used to run the model on concrete inputs:
    - [Scripted]: a service that answers the successive requests with a
      given list of responses and errors (and a connection error once the
      list is exhausted), to drive every branch of the script;
    - [Accepting]: a service that accepts every request;
    - [MemQueue]: an in-memory queue service in the manner of the
      LocalStack endpoint the script targets by default: queues by URL,
      each a list of (message id, body), ids drawn from a counter; a
      request to an unknown queue is rejected with [QueueDoesNotExist]
      and a request without [QueueUrl] with [MissingParameter].
    None is code of the repository: they stand for the external
    service; [MemQueue] also keeps the law [SQSServiceLaws]. *)

From S2P Require Import Prelude JsValue Env Sqs.
Import Config Sqs.
Local Open Scope string_scope.

Module Services.

Record Scripted := mkScripted {
  replies : list (SendMessageResult + SdkError)
}.

Definition connection_refused : SdkError :=
  mkSdkError "NetworkingError" "connect ECONNREFUSED".

#[export] Instance Scripted_service : SQSService Scripted :=
  fun st _ _ =>
    match replies st with
    | r :: rs => (mkScripted rs, r)
    | [] => (st, inr connection_refused)
    end.

(** A service that accepts every request, numbering the messages. *)
Record Accepting := mkAccepting { next_id : N }.

#[export] Instance Accepting_service : SQSService Accepting :=
  fun st _ _ => (mkAccepting (next_id st + 1)%N,
                 inl (mkSendMessageResult (Some (pretty (next_id st))))).

Record MemQueue := mkMemQueue {
  mq_queues : gmap string (list (string * string));
  mq_next : N
}.

Definition queue_does_not_exist : SdkError :=
  mkSdkError "QueueDoesNotExist" "The specified queue does not exist.".
Definition missing_parameter : SdkError :=
  mkSdkError "MissingParameter" "The request must contain the parameter QueueUrl.".

#[export] Instance MemQueue_service : SQSService MemQueue :=
  fun st _ cmd =>
    match QueueUrl cmd with
    | Some u =>
        match mq_queues st !! u with
        | Some q =>
            let id := pretty (mq_next st) in
            (mkMemQueue (<[u := (q ++ [(id, MessageBody cmd)])%list]> (mq_queues st))
                        (mq_next st + 1)%N,
             inl (mkSendMessageResult (Some id)))
        | None => (st, inr queue_does_not_exist)
        end
    | None => (st, inr missing_parameter)
    end.

(** ** Fixtures for the runs of the theorems' witnesses *)

Definition demo_client : SQSClient := new_SQSClient default_client_config.
Definition demo_queue : js_string := Some "http://localhost:4566/000000000000/demo".

Definition receipt_1 : SendMessageResult := mkSendMessageResult (Some "5fea7756").
Definition receipt_2 : SendMessageResult := mkSendMessageResult (Some "b3d1e2f0").
Definition localstack_cfg : SQSClientConfig := client_config env_localstack.
Definition localstack_queue : js_string := queueUrl env_localstack.

(** A LocalStack service on which the queue was never created. *)
Definition localstack_missing : MemQueue := mkMemQueue ∅ 0.

(** The in-memory queue keeps the service law. *)
#[export] Instance MemQueue_laws : SQSServiceLaws MemQueue.
Proof.
  constructor. intros [qs n] cfg [[u|] body] s' e; unfold sqs_send, MemQueue_service; simpl;
    [destruct (qs !! u)|]; congruence.
Qed.

End Services.
