(* ===== verification/Runtime.v ===== *)
(** * Runtime: the Node.js process as a state and outcome monad

    A run of the script is a computation [JS S A] over a [world]: the
    state of the SQS service behind the client ([w_service], of any type
    [S] with an [SQSService] instance) and the trace of what the process
    did, in order ([w_trace]: lines written to stdout and stderr and
    requests sent).  A computation ends in one of three ways, the
    [outcome]: it returns ([Done], the promise of an [async] function is
    fulfilled), it is rejected ([Threw], an [await] of a rejected promise
    propagates), or it calls [process.exit] ([Exited]), after which no
    code runs.  The primitives are the calls the script makes:
    [console.log], [console.error], [process.exit], [client.send] and
    [promise.catch(handler)].

    [await] is sequencing: the script is one logical task and each
    [await] suspends it until its promise settles, so a run is the
    sequence of its steps (spec section 5). *)

From S2P Require Import Prelude JsValue Env Sqs.
Import Config Sqs.

Module Runtime.

(** What the process does that can be observed, in order. *)
Inductive event :=
| EvStdout (line : string)            (** [console.log(line)] *)
| EvStderr (line : string)            (** [console.error(line)] *)
| EvStderrError (e : SdkError)        (** [console.error(err)] on an error object *)
| EvSend (cfg : SQSClientConfig) (cmd : SendMessageCommand).
                                      (** one [client.send] request *)

#[export] Instance event_eq_dec : EqDecision event.
Proof. solve_decision. Defined.

(** How a computation ends. *)
Inductive outcome (A : Type) :=
| Done (a : A)
| Threw (e : SdkError)
| Exited (code : Z).
Arguments Done {A} a.
Arguments Threw {A} e.
Arguments Exited {A} code.

Record world (S : Type) := mkWorld {
  w_service : S;
  w_trace : list event
}.
Arguments mkWorld {S} w_service w_trace.
Arguments w_service {S} w.
Arguments w_trace {S} w.

Definition JS (S A : Type) : Type := world S -> outcome A * world S.

Section Monad.
Context {S : Type} `{SQSService S}.

Definition js_ret {A} (a : A) : JS S A := fun w => (Done a, w).

(** [await m] then the continuation; a rejection or an exit skips the
    rest. *)
Definition js_bind {A B} (m : JS S A) (k : A -> JS S B) : JS S B :=
  fun w =>
    match m w with
    | (Done a, w') => k a w'
    | (Threw e, w') => (Threw e, w')
    | (Exited c, w') => (Exited c, w')
    end.

#[export] Instance JS_ret : MRet (JS S) := @js_ret.
#[export] Instance JS_bind : MBind (JS S) := fun A B k m => js_bind m k.

(** Append one event to the trace. *)
Definition emit (ev : event) : JS S unit :=
  fun w => (Done tt, mkWorld (w_service w) (w_trace w ++ [ev])).

Definition console_log (line : string) : JS S unit := emit (EvStdout line).
Definition console_error (line : string) : JS S unit := emit (EvStderr line).
Definition console_error_err (e : SdkError) : JS S unit := emit (EvStderrError e).

(** [process.exit(code)]: the process ends here. *)
Definition process_exit {A} (code : Z) : JS S A := fun w => (Exited code, w).

(** [await client.send(command)]: the request is sent, then the service
    answers with a response or a rejection. *)
Definition client_send (client : SQSClient) (cmd : SendMessageCommand)
    : JS S SendMessageResult :=
  fun w =>
    let cfg := client_config_of client in
    let '(s', r) := sqs_send (w_service w) cfg cmd in
    let w' := mkWorld s' (w_trace w ++ [EvSend cfg cmd]) in
    match r with
    | inl res => (Done res, w')
    | inr e => (Threw e, w')
    end.

(** [promise.catch(handler)]: a rejection runs the handler. *)
Definition js_catch {A} (m : JS S A) (h : SdkError -> JS S A) : JS S A :=
  fun w =>
    match m w with
    | (Threw e, w') => h e w'
    | r => r
    end.

(** The exit status of the process once the computation has ended: [0]
    when the event loop drains, the code given to [process.exit], and [1]
    for a rejection nobody handled (Node.js 15 and later). *)
Definition exit_code {A} (o : outcome A) : Z :=
  match o with
  | Done _ => 0
  | Threw _ => 1
  | Exited c => c
  end.

(** ** Lemmas *)

Lemma mbind_js_bind {A B} (m : JS S A) (k : A -> JS S B) :
  mbind k m = js_bind m k.
Proof. reflexivity. Qed.

Lemma mret_js_ret {A} (a : A) : mret (M:=JS S) a = js_ret a.
Proof. reflexivity. Qed.

Lemma js_bind_Done {A B} (m : JS S A) (k : A -> JS S B) w a w' :
  m w = (Done a, w') -> js_bind m k w = k a w'.
Proof. unfold js_bind. by intros ->. Qed.

Lemma js_bind_Threw {A B} (m : JS S A) (k : A -> JS S B) w e w' :
  m w = (Threw e, w') -> js_bind m k w = (Threw e, w').
Proof. unfold js_bind. by intros ->. Qed.

Lemma js_bind_ret_l {A B} (a : A) (k : A -> JS S B) w :
  js_bind (js_ret a) k w = k a w.
Proof. reflexivity. Qed.

Lemma emit_run ev w :
  emit ev w = (Done tt, mkWorld (w_service w) (w_trace w ++ [ev])).
Proof. reflexivity. Qed.

Lemma client_send_accepted client cmd s tr s' res :
  sqs_send s (client_config_of client) cmd = (s', inl res) ->
  client_send client cmd (mkWorld s tr) =
    (Done res, mkWorld s' (tr ++ [EvSend (client_config_of client) cmd])).
Proof. unfold client_send. simpl. by intros ->. Qed.

Lemma client_send_rejected client cmd s tr s' e :
  sqs_send s (client_config_of client) cmd = (s', inr e) ->
  client_send client cmd (mkWorld s tr) =
    (Threw e, mkWorld s' (tr ++ [EvSend (client_config_of client) cmd])).
Proof. unfold client_send. simpl. by intros ->. Qed.

(** A handler that never rejects makes [js_catch] never reject. *)
Lemma js_catch_handles {A} (m : JS S A) (h : SdkError -> JS S A) w e :
  (forall e0 w0, fst (h e0 w0) <> Threw e) -> fst (js_catch m h w) <> Threw e.
Proof.
  intros Hh. unfold js_catch.
  destruct (m w) as [[a|e0|c] w'] eqn:E; simpl; [discriminate|apply Hh|discriminate].
Qed.

End Monad.

(** [js_then lem]: run the first step of a bind with the run lemma [lem],
    whether it returns or rejects. *)
Ltac js_then lem :=
  first [ erewrite js_bind_Done by (by apply lem)
        | erewrite js_bind_Threw by (by apply lem) ].

#[export] Hint Rewrite @mbind_js_bind @mret_js_ret @js_bind_ret_l @emit_run : js_rw.

End Runtime.
