(* ===== verification/Publisher.v ===== *)
(** * Publisher: [sendMessage] (index.js lines 14-22)

    [sendMessage(message)] builds a [SendMessageCommand] from the
    module-level [queueUrl] and the message (lines 15-18), awaits
    [client.send] (line 20), and logs the message with the [MessageId] of
    the response (line 21).  A rejected send propagates: nothing is
    logged.  The module-level [client] and [queueUrl] are parameters
    here. *)

From S2P Require Import Prelude JsValue Env Sqs Services Runtime.
Import Config Sqs Services Runtime.
Local Open Scope string_scope.
Local Open Scope js_scope.

Module Publisher.
Section Publisher.
Context {S : Type} `{SQSService S}.

(** The command of lines 15-18. *)
Definition send_command (queueUrl : js_string) (message : string) : SendMessageCommand :=
  {| QueueUrl := queueUrl; MessageBody := message |}.

(** The template literal of line 21. *)
Definition message_sent_line (message : string) (response : SendMessageResult) : string :=
  "Message sent: " ++ message ++ " - MessageId: " ++ template_str (MessageId response).

(** Lines 14-22. *)
Definition sendMessage (client : SQSClient) (queueUrl : js_string) (message : string)
    : JS S unit :=
  let command := send_command queueUrl message in
  let* response := client_send client command in
  console_log (message_sent_line message response).

(** ** Behaviour on each branch *)

Lemma sendMessage_run client queueUrl message s tr :
  sendMessage client queueUrl message (mkWorld s tr) =
    let cmd := send_command queueUrl message in
    match sqs_send s (client_config_of client) cmd with
    | (s', inl res) =>
        (Done tt, mkWorld s' (tr ++ [EvSend (client_config_of client) cmd;
                                     EvStdout (message_sent_line message res)]))
    | (s', inr e) => (Threw e, mkWorld s' (tr ++ [EvSend (client_config_of client) cmd]))
    end.
Proof.
  unfold sendMessage. rewrite mbind_js_bind. simpl.
  destruct (sqs_send s _ _) as [s' [res|e]] eqn:Hs.
  - js_then client_send_accepted. unfold console_log. rewrite emit_run. simpl.
    by rewrite <- app_assoc.
  - by js_then client_send_rejected.
Qed.

(** C11: an accepted send issues exactly one request with the queue URL and
    the message, then logs the message with the returned [MessageId]. *)
Theorem sendMessage_accepted client queueUrl message s tr s' res :
  sqs_send s (client_config_of client) (send_command queueUrl message) = (s', inl res) ->
  sendMessage client queueUrl message (mkWorld s tr) =
    (Done tt, mkWorld s' (tr ++ [EvSend (client_config_of client) (send_command queueUrl message);
                                 EvStdout (message_sent_line message res)])).
Proof. intros Hs. rewrite sendMessage_run. simpl. by rewrite Hs. Qed.

(** C12: a rejected send issues exactly one request, logs nothing and
    rejects with the service's error. *)
Theorem sendMessage_rejected client queueUrl message s tr s' e :
  sqs_send s (client_config_of client) (send_command queueUrl message) = (s', inr e) ->
  sendMessage client queueUrl message (mkWorld s tr) =
    (Threw e, mkWorld s' (tr ++ [EvSend (client_config_of client) (send_command queueUrl message)])).
Proof. intros Hs. rewrite sendMessage_run. simpl. by rewrite Hs. Qed.

End Publisher.


(** ** Runs against a scripted service *)

Lemma sendMessage_accepted_witness :
  sendMessage demo_client demo_queue "hi" (mkWorld (mkScripted [inl receipt_1]) []) =
    (Done tt, mkWorld (mkScripted [])
       [EvSend default_client_config (send_command demo_queue "hi");
        EvStdout "Message sent: hi - MessageId: 5fea7756"]).
Proof.
  apply (sendMessage_accepted demo_client demo_queue "hi" (mkScripted [inl receipt_1]) []
           (mkScripted []) receipt_1).
  reflexivity.
Defined.

Lemma sendMessage_rejected_witness :
  sendMessage demo_client demo_queue "hi" (mkWorld (mkScripted []) []) =
    (Threw connection_refused, mkWorld (mkScripted [])
       [EvSend default_client_config (send_command demo_queue "hi")]).
Proof.
  apply (sendMessage_rejected demo_client demo_queue "hi" (mkScripted []) [] (mkScripted [])).
  reflexivity.
Defined.

End Publisher.
