(* ===== verification/PublishSpec.v ===== *)
(** * PublishSpec: what a sequence of publish calls promises (spec 4.2-4.3)

    The abstract contract of the Runner: an ordered, finite sequence of
    publish calls against one client, each awaited before the next, each
    one request; an accepted call logs "Message sent: <m> - MessageId:
    <id>" (spec section 8), and the first rejection ends the sequence
    with that error, no later message being sent (fail-fast).

    The contract is an inductive relation [publishes] over the service
    state, the messages, the outcome, the final service state and the
    events, and [publish] is its executable form; [publish_iff] shows
    they agree.  [Runner.v] proves that the script's sends implement it. *)

From S2P Require Import Prelude JsValue Env Sqs Runtime Publisher.
Import Config Sqs Runtime Publisher.

Module PublishSpec.
Section PublishSpec.
Context {S : Type} `{SQSService S}.
Variable cfg : SQSClientConfig.
Variable queueUrl : js_string.

Inductive publishes : S -> list string -> outcome unit -> S -> list event -> Prop :=
| publishes_nil s :
    publishes s [] (Done tt) s []
| publishes_accept s m ms s1 res o s2 evs :
    sqs_send s cfg (send_command queueUrl m) = (s1, inl res) ->
    publishes s1 ms o s2 evs ->
    publishes s (m :: ms) o s2
      (EvSend cfg (send_command queueUrl m) :: EvStdout (message_sent_line m res) :: evs)
| publishes_reject s m ms s1 e :
    sqs_send s cfg (send_command queueUrl m) = (s1, inr e) ->
    publishes s (m :: ms) (Threw e) s1 [EvSend cfg (send_command queueUrl m)].

Fixpoint publish (msgs : list string) (s : S) : outcome unit * S * list event :=
  match msgs with
  | [] => (Done tt, s, [])
  | m :: ms =>
      match sqs_send s cfg (send_command queueUrl m) with
      | (s1, inl res) =>
          let '(o, s2, evs) := publish ms s1 in
          (o, s2, EvSend cfg (send_command queueUrl m) :: EvStdout (message_sent_line m res) :: evs)
      | (s1, inr e) => (Threw e, s1, [EvSend cfg (send_command queueUrl m)])
      end
  end.

(** The commands of the requests of a trace, in order. *)
Definition sent_commands (evs : list event) : list SendMessageCommand :=
  omap (fun ev => match ev with EvSend _ cmd => Some cmd | _ => None end) evs.

(** ** The executable form agrees with the relation *)

Lemma publish_publishes msgs s :
  let '(o, s', evs) := publish msgs s in publishes s msgs o s' evs.
Proof.
  revert s. induction msgs as [|m ms IH]; intros s; simpl; [constructor|].
  destruct (sqs_send s cfg _) as [s1 [res|e]] eqn:Hs.
  - specialize (IH s1). destruct (publish ms s1) as [[o s2] evs].
    by eapply publishes_accept.
  - by eapply publishes_reject.
Qed.

Lemma publishes_publish s msgs o s' evs :
  publishes s msgs o s' evs -> publish msgs s = (o, s', evs).
Proof. induction 1 as [|? ? ? ? ? ? ? ? Hs ? IH|? ? ? ? ? Hs]; simpl; rewrite ?Hs, ?IH; done. Qed.

Lemma publish_iff s msgs o s' evs :
  publishes s msgs o s' evs <-> publish msgs s = (o, s', evs).
Proof.
  split; [apply publishes_publish|].
  intros E. pose proof (publish_publishes msgs s) as P. by rewrite E in P.
Qed.

(** ** What the contract guarantees *)

Lemma sent_commands_app evs1 evs2 :
  sent_commands (evs1 ++ evs2) = sent_commands evs1 ++ sent_commands evs2.
Proof. apply omap_app. Qed.

(** Every request of a publish sequence goes through the client's
    configuration with one of the messages. *)
Lemma publishes_requests s msgs o s' evs c cmd :
  publishes s msgs o s' evs -> EvSend c cmd ∈ evs ->
  c = cfg /\ exists m, m ∈ msgs /\ cmd = send_command queueUrl m.
Proof.
  induction 1 as [|? m ? ? ? ? ? ? ? ? IH|? m]; intros Hin.
  - by apply elem_of_nil in Hin.
  - rewrite !elem_of_cons in Hin.
    destruct Hin as [[= -> ->]|[?|Hin]]; [split; [done|] | done |].
    + exists m. split; [left | done].
    + destruct (IH Hin) as [-> (m' & ? & ->)]. split; [done|].
      exists m'. split; [by right | done].
  - rewrite list_elem_of_singleton in Hin. injection Hin as -> ->.
    split; [done|]. exists m. split; [left | done].
Qed.

(** Every message is sent when the sequence completes. *)
Lemma publishes_done_sends_all s msgs s' evs :
  publishes s msgs (Done tt) s' evs ->
  sent_commands evs = map (send_command queueUrl) msgs.
Proof.
  remember (Done tt) as o eqn:Eo.
  induction 1 as [|? ? ? ? ? ? ? ? ? ? IH|]; subst; simpl; [done| |discriminate].
  by rewrite IH.
Qed.

(** Fail-fast: a rejected sequence is a completed sequence on the
    messages before the rejected one, then the rejected request, and
    nothing after it. *)
Lemma publishes_threw_split s msgs e s' evs :
  publishes s msgs (Threw e) s' evs ->
  exists pre m post s1 evs1, msgs = pre ++ m :: post /\
    publishes s pre (Done tt) s1 evs1 /\
    sqs_send s1 cfg (send_command queueUrl m) = (s', inr e) /\
    evs = evs1 ++ [EvSend cfg (send_command queueUrl m)].
Proof.
  remember (Threw e) as o eqn:Eo.
  induction 1 as [|s0 m ms s1 res o0 sf evs0 Hs ? IH|s0 m ms s1 e' Hs]; subst; [discriminate| |].
  - destruct IH as (pre & m' & post & s3 & evs1 & -> & P & Hr & ->); [done|].
    exists (m :: pre), m', post, s3, (EvSend cfg (send_command queueUrl m) ::
      EvStdout (message_sent_line m res) :: evs1).
    split_and!; [done | by eapply publishes_accept | done | done].
  - injection Eo as ->. exists [], m, ms, s0, []. split_and!; [done | constructor | done | done].
Qed.

(** A publish sequence never calls [process.exit]. *)
Lemma publishes_outcome s msgs o s' evs :
  publishes s msgs o s' evs -> o = Done tt \/ exists e, o = Threw e.
Proof. induction 1; eauto. Qed.

(** Ordering: each accepted message's log line comes right after its
    request and before the next request. *)
Lemma publishes_done_interleaving s msgs s' evs :
  publishes s msgs (Done tt) s' evs ->
  exists rs, length rs = length msgs /\
    evs = flat_map (fun '(m, r) => [EvSend cfg (send_command queueUrl m);
                                    EvStdout (message_sent_line m r)]) (zip msgs rs).
Proof.
  remember (Done tt) as o eqn:Eo.
  induction 1 as [|? m ? ? res ? ? ? ? ? IH|]; subst; [by exists []| |discriminate].
  destruct IH as (rs & Hl & ->); [done|]. exists (res :: rs). simpl. by rewrite Hl.
Qed.

(** Against a service that accepts every request, the sequence
    completes. *)
Lemma publish_accepting msgs s :
  (forall s0 cmd, exists s1 r, sqs_send s0 cfg cmd = (s1, inl r)) ->
  exists s' evs, publish msgs s = (Done tt, s', evs).
Proof.
  intros Hacc. revert s. induction msgs as [|m ms IH]; intros s; simpl; [by eauto|].
  destruct (Hacc s (send_command queueUrl m)) as (s1 & r & ->).
  destruct (IH s1) as (s2 & evs & ->). eauto.
Qed.

End PublishSpec.

#[export] Hint Constructors publishes : js.

End PublishSpec.
