(* ===== verification/Runner.v ===== *)
(** * Runner: [main], the entry point and the whole module (lines 3-38)

    [main] (lines 24-36) stops the process with status 1 when [queueUrl]
    is falsy (lines 25-28), logs the queue (line 30), awaits
    [sendMessage] on two fixed messages (lines 32-33) and logs success
    (line 35).  The entry point (line 38) runs [main] and hands a
    rejection to [console.error].  [program] is the whole module: the
    client and [queueUrl] of lines 3-12, then line 38.

    [send_all] is the two awaited sends of lines 32-33 over any list of
    messages; [send_all_run] shows that [send_all] implements the
    contract [PublishSpec.publish].  [main_run] gives every run of
    [main]; the theorems on [program] follow from it. *)

From S2P Require Import Prelude JsValue Env Sqs Services Runtime Publisher PublishSpec.
Import Config Sqs Services Runtime Publisher PublishSpec.
Local Open Scope string_scope.
Local Open Scope js_scope.

Module Runner.
Section Runner.
Context {S : Type} `{SQSService S}.

(** The literals of lines 26, 30, 32, 33 and 35. *)
Definition missing_queue_url_line := "QUEUE_URL environment variable is required".
Definition message_1 := "Hello from Node.js app - Message 1".
Definition message_2 := "Hello from Node.js app - Message 2".
Definition all_sent_line := "All messages sent successfully".
Definition sending_line (queueUrl : js_string) : string :=
  "Sending messages to queue: " ++ template_str queueUrl.

(** Lines 24-36. *)
Definition main (client : SQSClient) (queueUrl : js_string) : JS S unit :=
  (if negb (truthy queueUrl) then
     console_error missing_queue_url_line ;;
     process_exit 1
   else mret tt) ;;
  console_log (sending_line queueUrl) ;;
  sendMessage client queueUrl message_1 ;;
  sendMessage client queueUrl message_2 ;;
  console_log all_sent_line.

(** Line 38: [main().catch(console.error)]. *)
Definition entry (client : SQSClient) (queueUrl : js_string) : JS S unit :=
  js_catch (main client queueUrl) console_error_err.

(** Lines 3-10: the module-level client. *)
Definition module_client (env : gmap string string) : SQSClient :=
  new_SQSClient (client_config env).

(** The module, evaluated top to bottom: lines 3-12, then line 38. *)
Definition program (env : gmap string string) : JS S unit :=
  entry (module_client env) (queueUrl env).

(** A process run from a service state: exit status and final world. *)
Definition run_program (env : gmap string string) (s : S) : Z * world S :=
  let '(o, w) := program env (mkWorld s []) in (exit_code o, w).

(** Lines 32-33 over a list of messages: each [sendMessage] awaited in
    turn. *)
Fixpoint send_all (client : SQSClient) (queueUrl : js_string) (msgs : list string)
    : JS S unit :=
  match msgs with
  | [] => mret tt
  | m :: ms => sendMessage client queueUrl m ;; send_all client queueUrl ms
  end.

(** The events after the queue log line, and the exit status, of a run
    whose publish sequence ended with [o] after the events [evs]. *)
Definition after_publish (o : outcome unit) (evs : list event) : Z * list event :=
  match o with
  | Done _ => (0%Z, evs ++ [EvStdout all_sent_line])%list
  | Threw e => (0%Z, evs ++ [EvStderrError e])%list
  | Exited c => (c, evs)
  end.

(** ** [send_all] implements the publish contract *)

Lemma send_all_run client queueUrl msgs s tr :
  send_all client queueUrl msgs (mkWorld s tr) =
    let '(o, s', evs) := publish (client_config_of client) queueUrl msgs s in
    (o, mkWorld s' (tr ++ evs)).
Proof.
  revert s tr. induction msgs as [|m ms IH]; intros s tr; simpl.
  { by rewrite app_nil_r. }
  rewrite mbind_js_bind. unfold js_bind at 1. rewrite sendMessage_run. simpl.
  destruct (sqs_send s _ _) as [s1 [res|e]]; [|done].
  rewrite IH. destruct (publish _ _ ms s1) as [[o s2] evs].
  by rewrite <- app_assoc.
Qed.

(** ** [main] is [send_all] on the two messages *)

(** ** Every run of [main] *)

Lemma main_run client queueUrl s tr :
  main client queueUrl (mkWorld s tr) =
    if truthy queueUrl then
      let '(o, s', evs) := publish (client_config_of client) queueUrl
                                   [message_1; message_2] s in
      (match o with Done _ => Done tt | Threw e => Threw e | Exited c => Exited c end,
       mkWorld s' (tr ++ [EvStdout (sending_line queueUrl)] ++ evs ++
                   match o with Done _ => [EvStdout all_sent_line] | _ => [] end))
    else (Exited 1, mkWorld s (tr ++ [EvStderr missing_queue_url_line])).
Proof.
  unfold main. destruct (truthy queueUrl); simpl; [|done].
  rewrite !mbind_js_bind, mret_js_ret, js_bind_ret_l.
  unfold js_bind at 1, console_log. rewrite emit_run. simpl.
  unfold js_bind at 1. rewrite sendMessage_run. simpl.
  destruct (sqs_send s _ (send_command queueUrl message_1)) as [s1 [r1|e1]];
    [|by rewrite <- !app_assoc].
  unfold js_bind at 1. rewrite sendMessage_run. simpl.
  destruct (sqs_send s1 _ (send_command queueUrl message_2)) as [s2 [r2|e2]];
    [|by rewrite <- !app_assoc].
  unfold console_log. rewrite emit_run. simpl. by rewrite <- !app_assoc.
Qed.

Lemma program_run env s :
  run_program env s =
    if truthy (queueUrl env) then
      let '(o, s', evs) := publish (client_config env) (queueUrl env)
                                   [message_1; message_2] s in
      let '(code, rest) := after_publish o evs in
      (code, mkWorld s' (EvStdout (sending_line (queueUrl env)) :: rest))
    else (1%Z, mkWorld s [EvStderr missing_queue_url_line]).
Proof.
  unfold run_program, program, entry, js_catch. rewrite main_run.
  unfold module_client. cbn [client_config_of].
  destruct (truthy (queueUrl env)); [|done].
  destruct (publish (client_config env) (queueUrl env) [message_1; message_2] s)
    as [[[[]|e|c] s'] evs]; simpl; by rewrite ?app_nil_r.
Qed.

(** ** Properties of the script *)

(** C1: with [QUEUE_URL] unset or empty, the process logs the missing
    configuration on stderr and exits with status 1, having sent no
    request and left the service untouched. *)
Theorem program_missing_queue_url env s :
  truthy (queueUrl env) = false ->
  run_program env s = (1%Z, mkWorld s [EvStderr missing_queue_url_line]).
Proof. intros Hq. by rewrite program_run, Hq. Qed.

(** C2: when the service accepts both sends, the process logs the queue,
    sends message 1, logs its receipt, sends message 2, logs its receipt,
    logs success and exits with status 0. *)
Theorem program_all_accepted env s s1 s2 r1 r2 :
  truthy (queueUrl env) = true ->
  sqs_send s (client_config env) (send_command (queueUrl env) message_1) = (s1, inl r1) ->
  sqs_send s1 (client_config env) (send_command (queueUrl env) message_2) = (s2, inl r2) ->
  run_program env s =
    (0%Z, mkWorld s2
      [EvStdout (sending_line (queueUrl env));
       EvSend (client_config env) (send_command (queueUrl env) message_1);
       EvStdout (message_sent_line message_1 r1);
       EvSend (client_config env) (send_command (queueUrl env) message_2);
       EvStdout (message_sent_line message_2 r2);
       EvStdout all_sent_line]).
Proof. intros Hq H1 H2. rewrite program_run, Hq. simpl. by rewrite H1, H2. Qed.

(** C3: fail-fast: when the service rejects the first send, the second
    message is never sent; the error is logged on stderr by the
    [.catch] of line 38 and the process exits with status 0. *)
Theorem program_first_rejected env s s1 e :
  truthy (queueUrl env) = true ->
  sqs_send s (client_config env) (send_command (queueUrl env) message_1) = (s1, inr e) ->
  run_program env s =
    (0%Z, mkWorld s1
      [EvStdout (sending_line (queueUrl env));
       EvSend (client_config env) (send_command (queueUrl env) message_1);
       EvStderrError e]).
Proof. intros Hq H1. rewrite program_run, Hq. simpl. by rewrite H1. Qed.

(** C4: when the service accepts the first send and rejects the second,
    the first receipt is logged, then the error, and success is never
    logged; the process exits with status 0. *)
Theorem program_second_rejected env s s1 s2 r1 e :
  truthy (queueUrl env) = true ->
  sqs_send s (client_config env) (send_command (queueUrl env) message_1) = (s1, inl r1) ->
  sqs_send s1 (client_config env) (send_command (queueUrl env) message_2) = (s2, inr e) ->
  run_program env s =
    (0%Z, mkWorld s2
      [EvStdout (sending_line (queueUrl env));
       EvSend (client_config env) (send_command (queueUrl env) message_1);
       EvStdout (message_sent_line message_1 r1);
       EvSend (client_config env) (send_command (queueUrl env) message_2);
       EvStderrError e]).
Proof. intros Hq H1 H2. rewrite program_run, Hq. simpl. by rewrite H1, H2. Qed.

(** C5: the exit status is 1 exactly when [QUEUE_URL] is unset or empty,
    and 0 otherwise, whatever the service answers: a failed publish
    does not give a non-zero status. *)
Theorem program_exit_status env s :
  fst (run_program env s) = if truthy (queueUrl env) then 0%Z else 1%Z.
Proof.
  rewrite program_run. destruct (truthy (queueUrl env)); [|done].
  pose proof (publish_publishes (client_config env) (queueUrl env) [message_1; message_2] s) as P.
  destruct (publish _ _ _ s) as [[o s'] evs].
  destruct (publishes_outcome _ _ _ _ _ _ _ P) as [->|[e ->]]; done.
Qed.

(** ** [send_all] against the contract *)

(** C6: refinement: every run of [send_all] is a run the publish contract
    [publishes] allows, and conversely, with the events of the run
    appended to the trace. *)
Theorem send_all_refines client queueUrl msgs s tr o w' :
  send_all client queueUrl msgs (mkWorld s tr) = (o, w') <->
  exists evs, publishes (client_config_of client) queueUrl s msgs o (w_service w') evs /\
              w_trace w' = (tr ++ evs)%list.
Proof.
  rewrite send_all_run.
  destruct (publish _ _ msgs s) as [[o' s'] evs] eqn:E. split.
  - intros [= <- <-]. exists evs. split; [by apply publish_iff | done].
  - intros (evs' & P%publish_iff & Htr). rewrite E in P. simplify_eq.
    destruct w'; simpl in *. by subst.
Qed.

(** C7: fail-fast: when [send_all] rejects, it rejects at one message
    [m]: the messages before [m] were all sent and accepted (the run on
    them completes), the service rejected the request for [m] with the
    error [send_all] ends with, and the trace ends with that request:
    no later message was sent. *)
Theorem send_all_fail_fast client queueUrl msgs s tr e w' :
  send_all client queueUrl msgs (mkWorld s tr) = (Threw e, w') ->
  exists pre m post w1, msgs = (pre ++ m :: post)%list /\
    send_all client queueUrl pre (mkWorld s tr) = (Done tt, w1) /\
    sqs_send (w_service w1) (client_config_of client) (send_command queueUrl m) =
      (w_service w', inr e) /\
    w_trace w' = (w_trace w1 ++ [EvSend (client_config_of client) (send_command queueUrl m)])%list.
Proof.
  rewrite send_all_run.
  pose proof (publish_publishes (client_config_of client) queueUrl msgs s) as P.
  destruct (publish _ _ msgs s) as [[o s'] evs]. intros [= -> <-].
  destruct (publishes_threw_split _ _ _ _ _ _ _ P) as (pre & m & post & s1 & evs1 & -> & Pre & Hr & ->).
  exists pre, m, post, (mkWorld s1 (tr ++ evs1)).
  rewrite send_all_run, (publishes_publish _ _ _ _ _ _ _ Pre). simpl.
  split_and!; [done | done | done | by rewrite app_assoc].
Qed.

(** C8: ordering: when [send_all] completes, every message was sent in
    the given order, and each receipt line follows its own request and
    precedes the next request. *)
Theorem send_all_done_in_order client queueUrl msgs s tr w' :
  send_all client queueUrl msgs (mkWorld s tr) = (Done tt, w') ->
  exists rs, length rs = length msgs /\
    w_trace w' = (tr ++ flat_map (fun '(m, r) =>
      [EvSend (client_config_of client) (send_command queueUrl m);
       EvStdout (message_sent_line m r)]) (zip msgs rs))%list.
Proof.
  rewrite send_all_run.
  pose proof (publish_publishes (client_config_of client) queueUrl msgs s) as P.
  destruct (publish _ _ msgs s) as [[o s'] evs]. intros [= -> <-].
  destruct (publishes_done_interleaving _ _ _ _ _ _ P) as (rs & Hl & ->).
  by exists rs.
Qed.

(** ** Safety of the whole run *)

(** C10: the line-38 handler catches every rejection: the entry point never
    ends rejected, so no unhandled rejection reaches Node.js. *)
Theorem entry_never_rejects client queueUrl w e :
  fst (entry client queueUrl w) <> Threw e.
Proof. apply js_catch_handles. discriminate. Qed.

(** C9: every request the process sends uses the client built from the
    environment, carries the non-empty [QUEUE_URL] as its queue and one
    of the two messages as its body. *)
Theorem program_requests_well_formed env s cfg cmd :
  EvSend cfg cmd ∈ w_trace (snd (run_program env s)) ->
  cfg = client_config env /\ QueueUrl cmd = queueUrl env /\
  truthy (QueueUrl cmd) = true /\ MessageBody cmd ∈ [message_1; message_2].
Proof.
  rewrite program_run.
  pose proof (publish_publishes (client_config env) (queueUrl env) [message_1; message_2] s) as P.
  destruct (publish (client_config env) (queueUrl env) [message_1; message_2] s)
    as [[o s'] evs].
  destruct (truthy (queueUrl env)) eqn:Hq.
  2:{ simpl. rewrite list_elem_of_singleton. discriminate. }
  assert (Hin : EvSend cfg cmd ∈ EvStdout (sending_line (queueUrl env)) :: (after_publish o evs).2 ->
                EvSend cfg cmd ∈ evs).
  { rewrite elem_of_cons. intros [?|Hin]; [discriminate|].
    destruct o; simpl in Hin; try done;
      apply elem_of_app in Hin as [?|?%list_elem_of_singleton]; by try discriminate. }
  destruct (after_publish o evs) as [code rest]. simpl. intros Hev.
  destruct (publishes_requests _ _ _ _ _ _ _ _ _ P (Hin Hev)) as [-> (m & Hm & ->)].
  cbn [QueueUrl MessageBody send_command]. by split_and!.
Qed.

(** C18: with a lawful service, a run that logs no receipt for the first
    message leaves the service as it found it: the script changes the
    queue only through accepted sends. *)
Theorem program_no_receipt_service_unchanged `{!SQSServiceLaws S} env s :
  (forall r, EvStdout (message_sent_line message_1 r) ∉ w_trace (run_program env s).2) ->
  w_service (run_program env s).2 = s.
Proof.
  rewrite program_run. destruct (truthy (queueUrl env)); [|done].
  cbn [publish].
  destruct (sqs_send s _ (send_command (queueUrl env) message_1)) as [s1 [r1|e1]] eqn:H1.
  - destruct (sqs_send s1 _ _) as [s2 [r2|e2]]; simpl; intros Hno;
      destruct (Hno r1); rewrite elem_of_cons; right; rewrite ?elem_of_cons; right; left; done.
  - intros _. simpl. by apply (sqs_send_rejected_unchanged _ _ _ _ _ H1).
Qed.

(** C19: spec section 8: against a service that accepts every request,
    [send_all] completes, having sent exactly one request per message, in
    the order given. *)
Theorem send_all_accepting client queueUrl msgs s tr :
  (forall s0 cmd, exists s1 r, sqs_send s0 (client_config_of client) cmd = (s1, inl r)) ->
  exists w', send_all client queueUrl msgs (mkWorld s tr) = (Done tt, w') /\
    sent_commands (w_trace w') = (sent_commands tr ++ map (send_command queueUrl) msgs)%list.
Proof.
  intros Hacc. rewrite send_all_run.
  destruct (publish_accepting (client_config_of client) queueUrl msgs s Hacc) as (s' & evs & E).
  pose proof (publish_publishes (client_config_of client) queueUrl msgs s) as P. rewrite E in P.
  rewrite E. eexists. split; [reflexivity|]. simpl.
  by rewrite sent_commands_app, (publishes_done_sends_all _ _ _ _ _ _ P).
Qed.

(** C13: [QUEUE_URL] set to the empty string behaves exactly as unset: the
    same exit status and the same trace. *)
Theorem program_empty_queue_url_is_missing env s :
  run_program (<[Config.QUEUE_URL:=""]> env) s = run_program (delete Config.QUEUE_URL env) s.
Proof. rewrite !program_run. unfold queueUrl. by rewrite lookup_insert_eq, lookup_delete_eq. Qed.

End Runner.

(** ** Runs against a scripted service *)

Lemma program_missing_queue_url_witness :
  run_program ∅ (mkScripted []) =
    (1%Z, mkWorld (mkScripted []) [EvStderr missing_queue_url_line]).
Proof. apply program_missing_queue_url. reflexivity. Defined.

Lemma program_all_accepted_witness :
  run_program env_localstack (mkScripted [inl receipt_1; inl receipt_2]) =
    (0%Z, mkWorld (mkScripted [])
      [EvStdout "Sending messages to queue: http://localhost:4566/000000000000/demo";
       EvSend localstack_cfg (send_command localstack_queue message_1);
       EvStdout "Message sent: Hello from Node.js app - Message 1 - MessageId: 5fea7756";
       EvSend localstack_cfg (send_command localstack_queue message_2);
       EvStdout "Message sent: Hello from Node.js app - Message 2 - MessageId: b3d1e2f0";
       EvStdout "All messages sent successfully"]).
Proof.
  apply (program_all_accepted env_localstack _ (mkScripted [inl receipt_2]) (mkScripted [])
           receipt_1 receipt_2); reflexivity.
Defined.

Lemma program_first_rejected_witness :
  run_program env_localstack (mkScripted [inr queue_does_not_exist]) =
    (0%Z, mkWorld (mkScripted [])
      [EvStdout "Sending messages to queue: http://localhost:4566/000000000000/demo";
       EvSend localstack_cfg (send_command localstack_queue message_1);
       EvStderrError queue_does_not_exist]).
Proof.
  apply (program_first_rejected env_localstack _ (mkScripted []) queue_does_not_exist);
    reflexivity.
Defined.

Lemma program_second_rejected_witness :
  run_program env_localstack (mkScripted [inl receipt_1]) =
    (0%Z, mkWorld (mkScripted [])
      [EvStdout "Sending messages to queue: http://localhost:4566/000000000000/demo";
       EvSend localstack_cfg (send_command localstack_queue message_1);
       EvStdout "Message sent: Hello from Node.js app - Message 1 - MessageId: 5fea7756";
       EvSend localstack_cfg (send_command localstack_queue message_2);
       EvStderrError connection_refused]).
Proof.
  apply (program_second_rejected env_localstack _ (mkScripted []) (mkScripted [])
           receipt_1 connection_refused); reflexivity.
Defined.

Lemma send_all_fail_fast_witness :
  exists pre m post w1, ["a"; "b"; "c"] = (pre ++ m :: post)%list /\
    send_all demo_client demo_queue pre (mkWorld (mkScripted [inl receipt_1]) []) = (Done tt, w1) /\
    sqs_send (w_service w1) (client_config_of demo_client) (send_command demo_queue m) =
      (w_service (send_all demo_client demo_queue ["a"; "b"; "c"]
                   (mkWorld (mkScripted [inl receipt_1]) [])).2, inr connection_refused) /\
    w_trace (send_all demo_client demo_queue ["a"; "b"; "c"]
              (mkWorld (mkScripted [inl receipt_1]) [])).2 =
      (w_trace w1 ++ [EvSend (client_config_of demo_client) (send_command demo_queue m)])%list.
Proof.
  apply (send_all_fail_fast demo_client demo_queue ["a"; "b"; "c"] (mkScripted [inl receipt_1]) []
           connection_refused).
  reflexivity.
Defined.

Lemma send_all_done_in_order_witness :
  exists rs, length rs = length ["a"; "b"] /\
    [EvSend default_client_config (send_command demo_queue "a");
     EvStdout "Message sent: a - MessageId: 5fea7756";
     EvSend default_client_config (send_command demo_queue "b");
     EvStdout "Message sent: b - MessageId: b3d1e2f0"] =
    ([] ++ flat_map (fun '(m, r) =>
      [EvSend (client_config_of demo_client) (send_command demo_queue m);
       EvStdout (message_sent_line m r)]) (zip ["a"; "b"] rs))%list.
Proof.
  apply (send_all_done_in_order demo_client demo_queue ["a"; "b"]
           (mkScripted [inl receipt_1; inl receipt_2]) [] (mkWorld (mkScripted []) _)).
  reflexivity.
Defined.

Lemma program_requests_well_formed_witness :
  localstack_cfg = client_config env_localstack /\
  QueueUrl (send_command localstack_queue message_2) = queueUrl env_localstack /\
  truthy (QueueUrl (send_command localstack_queue message_2)) = true /\
  MessageBody (send_command localstack_queue message_2) ∈ [message_1; message_2].
Proof.
  apply (program_requests_well_formed env_localstack (mkScripted [inl receipt_1; inl receipt_2])).
  apply (bool_decide_unpack _). vm_compute. reflexivity.
Defined.

Lemma program_no_receipt_service_unchanged_witness :
  w_service (run_program env_localstack localstack_missing).2 = localstack_missing.
Proof.
  apply program_no_receipt_service_unchanged. intros r.
  apply (bool_decide_unpack _). vm_compute. reflexivity.
Defined.

Lemma send_all_accepting_witness :
  exists w', send_all demo_client demo_queue ["A"; "B"] (mkWorld (mkAccepting 0) []) = (Done tt, w') /\
    sent_commands (w_trace w') = (sent_commands [] ++ map (send_command demo_queue) ["A"; "B"])%list.
Proof.
  apply send_all_accepting. intros s0 cmd. by eexists _, _.
Defined.

End Runner.
