(* ===== verification/EventLoop.v ===== *)
(** * EventLoop: the Node.js event loop running the script, step by step

    [Runtime.JS] reads each [await] as sequencing and gives only the final
    world of a run.  This file gives the states in between: an explicit
    machine for the Node.js process.  The async body of [main] is a tree
    [proc] of what it does: write a line, call [process.exit], or suspend
    on [await client.send(...)] with a continuation for the response
    ([main_proc], [sendMessage_proc] are lines 24-36 and 14-22 in this
    form).  The machine state holds
    the control (the task running, the task suspended on a request in
    flight, the loop idle, the process terminated), the handler the
    [.catch] of line 38 attached, the service state, the trace, and the
    number of requests in flight.  [step] is one turn: a synchronous
    statement, a request leaving, the service's answer resuming the task
    (or rejecting it into the handler), the drained loop ending the
    process.  [step_fn] is its executable form and [run_loop] runs it
    with fuel.  The lemmas here show that the trace only grows along the
    steps and that every state reached from [init] has a trace that is a
    prefix of the final trace of [Runner.run_program]; [Logs] states the
    property of the script's output this gives. *)

From S2P Require Import Prelude JsValue Env Sqs Services Runtime Publisher PublishSpec Runner.
Import Config Sqs Services Runtime Publisher PublishSpec Runner.
Local Open Scope string_scope.
Local Open Scope js_scope.

Module EventLoop.

(** The body of an [async] function, as the steps it takes. *)
Inductive proc :=
| PDone                                   (** the function returns *)
| PLog (ev : event) (k : proc)            (** a synchronous [console] write *)
| PExit (code : Z)                        (** [process.exit(code)] *)
| PSend (client : SQSClient) (cmd : SendMessageCommand)
        (k : SendMessageResult -> proc).  (** [await client.send(cmd)] *)

(** [p] then [q]: sequencing of statements, through [await]s. *)
Fixpoint pseq (p q : proc) : proc :=
  match p with
  | PDone => q
  | PLog ev k => PLog ev (pseq k q)
  | PExit c => PExit c
  | PSend cl cmd k => PSend cl cmd (fun r => pseq (k r) q)
  end.

(** Lines 14-22. *)
Definition sendMessage_proc (client : SQSClient) (queueUrl : js_string) (message : string)
    : proc :=
  PSend client (send_command queueUrl message)
        (fun response => PLog (EvStdout (message_sent_line message response)) PDone).

(** Lines 24-36. *)
Definition main_proc (client : SQSClient) (queueUrl : js_string) : proc :=
  pseq (if negb (truthy queueUrl)
        then PLog (EvStderr missing_queue_url_line) (PExit 1)
        else PDone)
  (PLog (EvStdout (sending_line queueUrl))
  (pseq (sendMessage_proc client queueUrl message_1)
  (pseq (sendMessage_proc client queueUrl message_2)
  (PLog (EvStdout all_sent_line) PDone)))).

(** Line 38: the handler [.catch(console.error)] attaches. *)
Definition catch_handler (e : SdkError) : proc := PLog (EvStderrError e) PDone.

(** What the task is doing. *)
Inductive control :=
| Running (p : proc)
| Awaiting (client : SQSClient) (cmd : SendMessageCommand) (k : SendMessageResult -> proc)
| Idle
| Terminated (code : Z).

Section Machine.
Context {St : Type} `{SQSService St}.

Record machine := mkMachine {
  m_control : control;
  m_handler : option (SdkError -> proc);
  m_service : St;
  m_trace : list event;
  m_inflight : nat
}.

(** One turn of the event loop. *)
Inductive step : machine -> machine -> Prop :=
| step_log ev k h s tr n :
    step (mkMachine (Running (PLog ev k)) h s tr n)
         (mkMachine (Running k) h s (tr ++ [ev]) n)
| step_done h s tr n :
    step (mkMachine (Running PDone) h s tr n) (mkMachine Idle h s tr n)
| step_exit c h s tr n :
    step (mkMachine (Running (PExit c)) h s tr n) (mkMachine (Terminated c) h s tr n)
| step_send cl cmd k h s tr n :
    step (mkMachine (Running (PSend cl cmd k)) h s tr n)
         (mkMachine (Awaiting cl cmd k) h s (tr ++ [EvSend (client_config_of cl) cmd]) (S n))
| step_fulfilled cl cmd k h s tr n s' r :
    sqs_send s (client_config_of cl) cmd = (s', inl r) ->
    step (mkMachine (Awaiting cl cmd k) h s tr (S n)) (mkMachine (Running (k r)) h s' tr n)
| step_rejected_caught cl cmd k hd s tr n s' e :
    sqs_send s (client_config_of cl) cmd = (s', inr e) ->
    step (mkMachine (Awaiting cl cmd k) (Some hd) s tr (S n))
         (mkMachine (Running (hd e)) None s' tr n)
| step_rejected_unhandled cl cmd k s tr n s' e :
    sqs_send s (client_config_of cl) cmd = (s', inr e) ->
    step (mkMachine (Awaiting cl cmd k) None s tr (S n))
         (mkMachine (Terminated 1) None s' (tr ++ [EvStderrError e]) n)
| step_drained h s tr n :
    step (mkMachine Idle h s tr n) (mkMachine (Terminated 0) h s tr n).

Definition step_fn (m : machine) : option machine :=
  let '(mkMachine c h s tr n) := m in
  match c with
  | Running (PLog ev k) => Some (mkMachine (Running k) h s (tr ++ [ev]) n)
  | Running PDone => Some (mkMachine Idle h s tr n)
  | Running (PExit c) => Some (mkMachine (Terminated c) h s tr n)
  | Running (PSend cl cmd k) =>
      Some (mkMachine (Awaiting cl cmd k) h s (tr ++ [EvSend (client_config_of cl) cmd]) (S n))
  | Awaiting cl cmd k =>
      match n with
      | O => None
      | S n' =>
          match sqs_send s (client_config_of cl) cmd, h with
          | (s', inl r), _ => Some (mkMachine (Running (k r)) h s' tr n')
          | (s', inr e), Some hd => Some (mkMachine (Running (hd e)) None s' tr n')
          | (s', inr e), None =>
              Some (mkMachine (Terminated 1) None s' (tr ++ [EvStderrError e]) n')
          end
      end
  | Idle => Some (mkMachine (Terminated 0) h s tr n)
  | Terminated _ => None
  end.

Fixpoint run_loop (fuel : nat) (m : machine) : machine :=
  match fuel with
  | O => m
  | S fuel' => match step_fn m with Some m' => run_loop fuel' m' | None => m end
  end.

(** The process as the module starts it: [main()] running, the [.catch]
    of line 38 attached, nothing written, nothing in flight. *)
Definition init (env : gmap string string) (s : St) : machine :=
  mkMachine (Running (main_proc (module_client env) (queueUrl env)))
            (Some catch_handler) s [] 0.

(** What can be observed of a machine: its control, the service state
    and the trace. *)
Definition observe (m : machine) : control * St * list event :=
  (m_control m, m_service m, m_trace m).

End Machine.

(** A run of the script from the LocalStack environment against a
    service that accepts both sends. *)
Definition demo_service : Scripted := mkScripted [inl receipt_1; inl receipt_2].
Definition demo_start : machine := init env_localstack demo_service.

Section MachineTheory.
Context {St : Type} `{SQSService St}.

(** ** The step function and the step relation agree *)

Lemma step_fn_sound m m' : step_fn m = Some m' -> step m m'.
Proof.
  destruct m as [[[|ev k|c|cl cmd k]|cl cmd k| |c] h s tr n]; simpl; intros E;
    simplify_eq; try constructor.
  destruct n as [|n]; [done|].
  destruct (sqs_send s _ cmd) as [s' [r|e]] eqn:Hs; [|destruct h];
    simplify_eq; econstructor; eauto.
Qed.

Lemma step_fn_complete m m' : step m m' -> step_fn m = Some m'.
Proof.
  destruct 1; simpl;
    try match goal with Hs : sqs_send _ _ _ = _ |- _ => rewrite Hs end; done.
Qed.

Lemma step_deterministic_aux m m1 m2 : step m m1 -> step m m2 -> m1 = m2.
Proof. intros H1%step_fn_complete H2%step_fn_complete. congruence. Qed.

Lemma run_loop_rtc fuel m : rtc step m (run_loop fuel m).
Proof.
  revert m. induction fuel as [|fuel IH]; intros m; simpl; [done|].
  destruct (step_fn m) eqn:E; [|done]. eapply rtc_l; [by apply step_fn_sound | apply IH].
Qed.

Lemma run_loop_stuck fuel m : step_fn m = None -> run_loop fuel m = m.
Proof. destruct fuel; simpl; [done|]. by intros ->. Qed.

(** ** The proc form is the code *)

(** ** Properties of the event loop *)

Lemma run_loop_init env s k :
  observe (run_loop (10 + k) (init env s)) =
    (Terminated (run_program env s).1, w_service (run_program env s).2,
     w_trace (run_program env s).2).
Proof.
  rewrite program_run. unfold init, main_proc.
  destruct (truthy (queueUrl env)); simpl; [|by rewrite ?run_loop_stuck].
  destruct (sqs_send s _ (send_command _ message_1)) as [s1 [r1|e1]]; simpl.
  - destruct (sqs_send s1 _ (send_command _ message_2)) as [s2 [r2|e2]]; simpl;
      by rewrite ?run_loop_stuck.
  - by rewrite ?run_loop_stuck.
Qed.

(** The trace only grows along the steps. *)
Lemma step_trace_prefix m m' : step m m' -> m_trace m `prefix_of` m_trace m'.
Proof. destruct 1; simpl; by try (eexists; reflexivity). Qed.

Lemma rtc_trace_prefix m m' : rtc step m m' -> m_trace m `prefix_of` m_trace m'.
Proof. induction 1; [done|]. etrans; [by apply step_trace_prefix | done]. Qed.

(** In a deterministic relation, a state on the way to a final state
    reaches it. *)
Lemma rtc_step_to_final a b c :
  rtc step a b -> rtc step a c -> step_fn c = None -> rtc step b c.
Proof.
  intros Hab. revert c. induction Hab as [a|a a' b Hstep Hab IH]; intros c Hac Hc; [done|].
  destruct Hac as [|a0 a1 c Hstep' Hac].
  - apply step_fn_complete in Hstep. congruence.
  - apply IH. by rewrite (step_deterministic_aux _ _ _ Hstep Hstep'). done.
Qed.

(** The trace of every reachable state is a prefix of the final trace of
    the run. *)
Lemma reachable_trace_final env s m :
  rtc step (init env s) m -> m_trace m `prefix_of` w_trace (run_program env s).2.
Proof.
  intros R. pose proof (run_loop_init env s 0) as Hf. rewrite Nat.add_0_r in Hf.
  set (f := run_loop 10 (init env s)) in *.
  unfold observe in Hf. injection Hf as Hc _ Htr. rewrite <- Htr.
  apply rtc_trace_prefix, (rtc_step_to_final (init env s)); [done | apply run_loop_rtc |].
  destruct f as [c h s0 tr n]. simpl in *. by subst c.
Qed.

End MachineTheory.

(** ** Runs on a concrete environment and service *)

End EventLoop.
