(* ===== verification/Logs.v ===== *)
(** * Logs: the console output of a run, printed and read back

    The script reports what it did only through [console.log] and
    [console.error] (lines 21, 26, 30, 35 and 38).  This file gives that
    output a type and a reader.  A [report] is what a run's output says:
    the missing configuration (lines 26-27), or the queue (line 30), the
    receipts logged for the messages the service accepted (line 21) and
    how the run ended (line 35, or the handler of line 38).
    [print_report] writes a report with the script's own line builders
    ([Runner.sending_line], [Publisher.message_sent_line], ...), and
    [parse_report] reads console output back.  [console_output] is what
    a trace shows on the terminal: its lines, the requests left out.

    The theorems: the output of every run is a well-formed report, with
    the exit status it implies (a type of the output); reading a printed
    well-formed report gives it back (the round trip, so the output
    determines the queue and the logged ids); composed with [EventLoop],
    the output of every state the event loop reaches is a prefix of the
    printing of the report the run ends with; and a missing [MessageId]
    cannot be told from the id ["undefined"]. *)

From S2P Require Import Prelude JsValue Env Sqs Services Runtime Publisher PublishSpec Runner EventLoop.
Import Config Sqs Services Runtime Publisher PublishSpec Runner EventLoop.
Local Open Scope string_scope.

Module Logs.

(** How a run that passed the check of line 25 ended. *)
Inductive run_end :=
| AllSent                  (** line 35 *)
| Failed (e : SdkError).   (** the handler of line 38 *)

(** What the console output of a run says. *)
Inductive report :=
| Missing                                                      (** lines 26-27 *)
| Ran (queue : string) (acks : list (string * string)) (fin : run_end).

#[export] Instance run_end_eq_dec : EqDecision run_end.
Proof. solve_decision. Defined.
#[export] Instance report_eq_dec : EqDecision report.
Proof. solve_decision. Defined.

(** What the terminal shows of an event. *)
Definition is_console (ev : event) : bool :=
  match ev with EvSend _ _ => false | _ => true end.

Definition console_output (evs : list event) : list event :=
  filter (fun ev => is_console ev = true) evs.

(** The receipt line of line 21 for message [a.1] with id [a.2]. *)
Definition ack_line (a : string * string) : event :=
  EvStdout (message_sent_line a.1 (mkSendMessageResult (Some a.2))).

Definition end_line (fin : run_end) : event :=
  match fin with
  | AllSent => EvStdout all_sent_line
  | Failed e => EvStderrError e
  end.

Definition print_report (r : report) : list event :=
  match r with
  | Missing => [EvStderr missing_queue_url_line]
  | Ran q acks fin =>
      EvStdout (sending_line (Some q)) :: (map ack_line acks ++ [end_line fin])%list
  end.

(** The fixed part of the template of line 21, before the id. *)
Definition sent_prefix (m : string) : string := "Message sent: " ++ m ++ " - MessageId: ".

(** The fixed part of the template of line 30. *)
Definition sending_prefix : string := "Sending messages to queue: ".

(** Read the receipts of the messages [msgs], in order, then the last
    line. *)
Fixpoint parse_acks (msgs : list string) (evs : list event)
    {struct evs} : option (list (string * string) * run_end) :=
  match evs with
  | EvStdout l :: rest =>
      match rest with
      | [] => if String.eqb l all_sent_line then Some ([], AllSent) else None
      | _ :: _ =>
          match msgs with
          | [] => None
          | m :: ms =>
              match strip_prefix (sent_prefix m) l, parse_acks ms rest with
              | Some id, Some (acks, fin) => Some ((m, id) :: acks, fin)
              | _, _ => None
              end
          end
      end
  | [EvStderrError e] => Some ([], Failed e)
  | _ => None
  end.

Definition parse_report (evs : list event) : option report :=
  match evs with
  | [EvStderr l] => if String.eqb l missing_queue_url_line then Some Missing else None
  | EvStdout l :: rest =>
      match strip_prefix sending_prefix l, parse_acks [message_1; message_2] rest with
      | Some q, Some (acks, fin) => Some (Ran q acks fin)
      | _, _ => None
      end
  | _ => None
  end.

(** A report a run can give: a non-empty queue, receipts for the
    script's messages in order, all of them when the run succeeded,
    fewer when it failed. *)
Definition report_wf (r : report) : bool :=
  match r with
  | Missing => true
  | Ran q acks fin =>
      negb (String.eqb q "") &&
      bool_decide (map fst acks = take (length acks) [message_1; message_2]) &&
      match fin with
      | AllSent => bool_decide (length acks = 2)
      | Failed _ => bool_decide (length acks < 2)
      end
  end.

(** The exit status a report implies. *)
Definition report_exit (r : report) : Z :=
  match r with Missing => 1%Z | Ran _ _ _ => 0%Z end.

(** The LocalStack run in which the service accepts both messages. *)
Definition demo_report : report :=
  Ran "http://localhost:4566/000000000000/demo"
      [(message_1, "5fea7756"); (message_2, "b3d1e2f0")] AllSent.

Definition demo_run_log : list event :=
  console_output (w_trace (run_program env_localstack
                             (mkScripted [inl receipt_1; inl receipt_2])).2).

(** ** Lemmas *)

Section Logs.
Context {S : Type} `{SQSService S}.

Lemma message_sent_line_prefix m r :
  message_sent_line m r = sent_prefix m ++ template_str (MessageId r).
Proof. unfold message_sent_line, sent_prefix. by rewrite <- !string_app_assoc. Qed.

Lemma sending_line_prefix q : sending_line (Some q) = sending_prefix ++ q.
Proof. reflexivity. Qed.

Lemma parse_acks_cons m ms l ev rest :
  parse_acks (m :: ms) (EvStdout l :: ev :: rest) =
    match strip_prefix (sent_prefix m) l, parse_acks ms (ev :: rest) with
    | Some id, Some (acks, fin) => Some ((m, id) :: acks, fin)
    | _, _ => None
    end.
Proof. reflexivity. Qed.

Lemma map_ack_line_app acks fin :
  exists ev rest, (map ack_line acks ++ [end_line fin])%list = ev :: rest.
Proof. destruct acks; simpl; eauto. Qed.

Lemma parse_print_acks msgs acks fin :
  map fst acks = take (length acks) msgs ->
  parse_acks msgs (map ack_line acks ++ [end_line fin])%list = Some (acks, fin).
Proof.
  revert msgs. induction acks as [|[m id] acks IH]; intros msgs Hm.
  - destruct fin; simpl; by rewrite ?String.eqb_refl.
  - destruct msgs as [|m' ms]; [done|].
    cbn [map fst length take] in Hm. injection Hm as <- Hm.
    destruct (map_ack_line_app acks fin) as (ev & rest & Hr). cbn [map app].
    change (ack_line (m, id)) with (EvStdout (message_sent_line m (mkSendMessageResult (Some id)))).
    rewrite Hr, parse_acks_cons, <- Hr, IH by done.
    by rewrite message_sent_line_prefix, strip_prefix_app.
Qed.

Lemma parse_report_stdout l rest :
  parse_report (EvStdout l :: rest) =
    match strip_prefix sending_prefix l, parse_acks [message_1; message_2] rest with
    | Some q, Some (acks, fin) => Some (Ran q acks fin)
    | _, _ => None
    end.
Proof. reflexivity. Qed.

Lemma parse_print_report_aux r :
  report_wf r = true -> parse_report (print_report r) = Some r.
Proof.
  destruct r as [|q acks fin]; [done|].
  intros Hwf. apply andb_prop in Hwf as [[_ Hm]%andb_prop _].
  apply bool_decide_eq_true in Hm. unfold print_report.
  by rewrite parse_report_stdout, sending_line_prefix, strip_prefix_app, parse_print_acks.
Qed.

Lemma console_output_prefix evs evs' :
  evs `prefix_of` evs' -> console_output evs `prefix_of` console_output evs'.
Proof. intros [k ->]. unfold console_output. rewrite filter_app. by eexists. Qed.

(** Every run's console output is a well-formed report, and the status
    the process exits with is the one that report implies. *)
Lemma run_output_report env s :
  exists r, report_wf r = true /\
    console_output (w_trace (run_program env s).2) = print_report r /\
    (run_program env s).1 = report_exit r.
Proof.
  rewrite program_run. destruct (truthy (queueUrl env)) eqn:Hq.
  2: { by exists Missing. }
  apply truthy_true in Hq as (q & Hq & Hne). apply String.eqb_neq in Hne. rewrite Hq.
  cbn [publish]. destruct (sqs_send s _ (send_command _ message_1)) as [s1 [r1|e1]].
  - destruct (sqs_send s1 _ (send_command _ message_2)) as [s2 [r2|e2]].
    + exists (Ran q [(message_1, template_str (MessageId r1));
                     (message_2, template_str (MessageId r2))] AllSent).
      simpl. by rewrite Hne.
    + exists (Ran q [(message_1, template_str (MessageId r1))] (Failed e2)).
      simpl. by rewrite Hne.
  - exists (Ran q [] (Failed e1)). simpl. by rewrite Hne.
Qed.

(** ** Properties *)

(** C20: a type of the output: the console output of every run, from
    every environment and service, is the printing of a well-formed
    report (the missing configuration, or a non-empty queue, the receipts
    of the script's messages in order, and success after both or a
    failure before), and the exit status is the one the report implies. *)
Theorem run_output_well_formed env s :
  exists r, report_wf r = true /\
    console_output (w_trace (run_program env s).2) = print_report r /\
    (run_program env s).1 = report_exit r.
Proof. apply run_output_report. Qed.

(** C21: round trip: reading back a printed well-formed report gives the
    report. *)
Theorem parse_print_report r :
  report_wf r = true -> parse_report (print_report r) = Some r.
Proof. apply parse_print_report_aux. Qed.

(** C22: the output as the process writes it: in every state the event
    loop reaches, what the terminal shows is a prefix of the printing of
    a well-formed report, the one whose exit status is that of the run;
    a reader watching the output never sees a line out of that shape. *)
Theorem reachable_output_prefix env s m :
  rtc step (init env s) m ->
  exists r, report_wf r = true /\ report_exit r = (run_program env s).1 /\
    console_output (m_trace m) `prefix_of` print_report r.
Proof.
  intros R. destruct (run_output_report env s) as (r & Hwf & Hout & Hexit).
  exists r. split_and!; [done | done |]. rewrite <- Hout.
  by apply console_output_prefix, (reachable_trace_final env s).
Qed.

(** C24: the output loses one case of the reply: a service answering the
    first send with no [MessageId] and one answering with the id
    ["undefined"] give the same console output, whatever else happens;
    the template of line 21 prints both as [undefined]. *)
Theorem run_output_undefined_ambiguous env rest :
  console_output (w_trace (run_program env
    (mkScripted (inl (mkSendMessageResult None) :: rest))).2) =
  console_output (w_trace (run_program env
    (mkScripted (inl (mkSendMessageResult (Some "undefined")) :: rest))).2).
Proof.
  rewrite !program_run. destruct (truthy (queueUrl env)); [|done].
  destruct rest as [|[r2|e2] rest]; reflexivity.
Qed.

End Logs.

(** ** Reports of concrete runs *)

Lemma parse_print_report_witness :
  report_wf demo_report = true /\ parse_report (print_report demo_report) = Some demo_report.
Proof. split; [reflexivity | apply parse_print_report; reflexivity]. Defined.

Lemma reachable_output_prefix_witness :
  exists r, report_wf r = true /\
    report_exit r = (run_program env_localstack demo_service).1 /\
    console_output (m_trace (run_loop 3 demo_start)) `prefix_of` print_report r.
Proof. apply (reachable_output_prefix env_localstack demo_service). apply run_loop_rtc. Defined.

End Logs.
